(** * Verification of the OFA pretraining launcher (examples/ofa/pretrain.py)

    A shallow embedding of the configuration-assembly logic of the
    launcher: option merging in [__main__], the task-name normalisation,
    the output-dimension and head-variant selection, the evaluation-kit
    builder, the strategy selection and the order of the side effects
    of a run. *)

From Stdlib Require Import ZArith Lia.
From stdpp Require Import base list gmap strings.
From Stdlib Require Import Ascii.

#[local] Set Warnings "-register-all".

Open Scope Z_scope.

(* ------------------------------------------------------------------ *)
(** ** Python values and the string helpers used by [main] *)

(** The Python values a parameter of the merged set can hold. *)
Inductive pyval :=
| PyNone
| PyBool (b : bool)
| PyInt (z : Z)
| PyStr (s : string)
| PyList (l : list pyval).

(** [isinstance(v, str)] *)
Definition py_isinstance_str (v : pyval) : bool :=
  match v with PyStr _ => true | _ => false end.

(** A Python [str] is held as its UTF-8 encoding (the encoding the
    YAML files and the command line are decoded from): a Coq [string]
    is the byte sequence of a valid UTF-8 text.  The comma is a single
    byte that never occurs inside the encoding of another character, so
    splitting on it byte by byte is splitting the text on it. *)

(** The code points for which [str.isspace] holds (CPython's
    [_PyUnicode_IsWhitespace]): U+0009..U+000D, U+001C..U+0020, U+0085,
    U+00A0, U+1680, U+2000..U+200A, U+2028, U+2029, U+202F, U+205F and
    U+3000, each given by its UTF-8 bytes. *)
Definition py_whitespace_utf8 : list (list ascii) :=
  map (map Ascii.ascii_of_nat)
    ([[9]; [10]; [11]; [12]; [13]; [28]; [29]; [30]; [31]; [32];
      [194; 133]; [194; 160]; [225; 154; 128]]
     ++ map (fun k => [226; 128; k]) (List.seq 128 11)
     ++ [[226; 128; 168]; [226; 128; 169]; [226; 128; 175];
         [226; 129; 159]; [227; 128; 128]])%nat.

(** [p] is a prefix of [l]. *)
Fixpoint is_prefix (p l : list ascii) : bool :=
  match p, l with
  | [], _ => true
  | a :: p', b :: l' => Ascii.eqb a b && is_prefix p' l'
  | _ :: _, [] => false
  end.

(** Drop the first pattern of [pats] that [l] starts with, if any. *)
Fixpoint strip_one (pats : list (list ascii)) (l : list ascii) : option (list ascii) :=
  match pats with
  | [] => None
  | p :: ps => if is_prefix p l then Some (List.skipn (length p) l) else strip_one ps l
  end.

(** Drop leading patterns as long as one matches; each step removes at
    least one byte, so [length l] steps suffice. *)
Fixpoint strip_prefixes (pats : list (list ascii)) (fuel : nat) (l : list ascii)
  : list ascii :=
  match fuel with
  | O => l
  | S f => match strip_one pats l with
           | Some r => strip_prefixes pats f r
           | None => l
           end
  end.

(** [s.lstrip()]: a UTF-8 text starts with a whitespace character
    exactly when it starts with that character's encoding. *)
Definition lstrip_l (l : list ascii) : list ascii :=
  strip_prefixes py_whitespace_utf8 (length l) l.

(** [s.rstrip()]: the same on the reversed bytes, matching reversed
    encodings (a valid UTF-8 text ends with the encoding of its last
    character). *)
Definition rstrip_l (l : list ascii) : list ascii :=
  rev (strip_prefixes (map (@rev ascii) py_whitespace_utf8) (length l) (rev l)).

(** [s.strip()]: drop leading and trailing whitespace. *)
Definition py_strip (s : string) : string :=
  String.string_of_list_ascii (rstrip_l (lstrip_l (String.list_ascii_of_string s))).

(** The UTF-8 text of U+00A0 (no-break space). *)
Definition nbsp : string :=
  String.string_of_list_ascii [Ascii.ascii_of_nat 194; Ascii.ascii_of_nat 160].

(** [s.split(sep)] for a one-character separator: every occurrence of
    [sep] ends a piece, empty pieces are kept, and the result is never
    empty ([ "".split(",") == [""] ]). *)
Fixpoint split_l (sep : ascii) (l : list ascii) (cur : list ascii)
  : list (list ascii) :=
  match l with
  | [] => [rev cur]
  | c :: r =>
      if Ascii.eqb c sep then rev cur :: split_l sep r []
      else split_l sep r (c :: cur)
  end.

Definition py_split (sep : ascii) (s : string) : list string :=
  map String.string_of_list_ascii (split_l sep (String.list_ascii_of_string s) []).

(** Lines 53-56 of [main]:
    [if isinstance(params.task_names, str):
         task_names = [a.strip() for a in params.task_names.split(",")]
     else:
         task_names = params.task_names] *)
Definition task_names_of (task_names : pyval) : pyval :=
  if py_isinstance_str task_names then
    match task_names with
    | PyStr s => PyList (map (fun a => PyStr (py_strip a)) (py_split "," s))
    | v => v
    end
  else task_names.

(* ------------------------------------------------------------------ *)
(** ** Model assembly (lines 76-89) *)

(** [out_dim = params.emb_dim + (params.rwpe if params.rwpe is not None else 0)];
    [rwpe] is [None] ([Datatypes.None]) or an integer. *)
Definition out_dim_of (emb_dim : Z) (rwpe : option Z) : Z :=
  emb_dim + (match rwpe with Some r => r | None => 0 end).

(** The two head classes of [models.model]. *)
Inductive head_variant := BinGraphAttModel | BinGraphModel.

(** [bin_model = BinGraphAttModel if params.JK == "none" else BinGraphModel] *)
Definition bin_model_of (JK : string) : head_variant :=
  if String.eqb JK "none" then BinGraphAttModel else BinGraphModel.

(** [strategy = "deepspeed_stage_2" if gpu_size > 1 else "auto"] *)
Definition strategy_of (gpu_size : nat) : string :=
  if (1 <? gpu_size)%nat then "deepspeed_stage_2" else "auto".

(* ------------------------------------------------------------------ *)
(** ** Exceptions and the run monad *)

(** The Python exceptions the modelled code can raise itself. *)
Inductive py_exn := IndexError.

Inductive result (A : Type) := Ok (a : A) | Err (e : py_exn).
Arguments Ok {A} a.
Arguments Err {A} e.

(** [l[0]] on a Python list. *)
Definition py_first {A} (l : list A) : result A :=
  match l with x :: _ => Ok x | [] => Err IndexError end.

(* ------------------------------------------------------------------ *)
(** ** Evaluation kit (lines 124-152) *)

(** An evaluation split as produced by the task constructor
    ([text_dataset["val"]] and [text_dataset["test"]] entries); the
    launcher reads [state_name], [metric], [classes] and
    [meta_data["eval_func"]] (the callback, named here). *)
Record split := mk_split {
  state_name : string;
  metric : string;
  classes : Z;
  eval_func : string
}.

(** The scorer objects [main] instantiates. *)
Inductive scorer :=
| Accuracy_multiclass (num_classes : Z)   (* Accuracy(task="multiclass", num_classes=..) *)
| AUROC_binary                            (* AUROC(task="binary") *)
| MultiApr (num_labels : Z)
| MultiAuc (num_labels : Z).

(** The body of the [for dt in eval_data] loop: what one split appends
    to [evlter]. *)
Definition scorers_for (dt : split) : list scorer :=
  if String.eqb (metric dt) "acc" then [Accuracy_multiclass (classes dt)]
  else if String.eqb (metric dt) "auc" then [AUROC_binary]
  else if String.eqb (metric dt) "apr" then [MultiApr (classes dt)]
  else if String.eqb (metric dt) "aucmulti" then [MultiAuc (classes dt)]
  else [].

(** The whole loop, appending in order. *)
Fixpoint build_evlter (eval_data : list split) : list scorer :=
  match eval_data with
  | [] => []
  | dt :: r => scorers_for dt ++ build_evlter r
  end.

(** The [EvalKit(...)] object (the loss and [flat_binary_func] are
    constants and omitted). *)
Record eval_kit := mk_eval_kit {
  kit_eval_metric : list string;
  kit_evlter : list scorer;
  kit_eval_funcs : list string;
  kit_eval_state : list string;
  kit_val_monitor_state : string;
  kit_test_monitor_state : string
}.

(** Lines 124-152.  The arguments of [EvalKit] are evaluated left to
    right, so [val_state[0]] is read before [test_state[0]]. *)
Definition build_eval_kit (val test : list split) : result eval_kit :=
  let eval_data := val ++ test in
  let val_state := map state_name val in
  let test_state := map state_name test in
  let eval_state := val_state ++ test_state in
  let eval_metric := map metric eval_data in
  let eval_funcs := map eval_func eval_data in
  let evlter := build_evlter eval_data in
  match py_first val_state with
  | Err e => Err e
  | Ok v0 =>
      match py_first test_state with
      | Err e => Err e
      | Ok t0 => Ok (mk_eval_kit eval_metric evlter eval_funcs eval_state v0 t0)
      end
  end.

(* ------------------------------------------------------------------ *)
(** ** A run: the observable steps of [__main__] and [main] *)

(** The steps of a run that call out of the launcher, in the order the
    source performs them.  External constructors (sentence encoder, task
    constructor, GNN, data module, Lightning driver) are modelled as
    steps that succeed; their results are read from [run_env]. *)
Inductive event :=
| ParseArgs
| LoadYaml (path : string)
| CombineDict
| MergeMod
| SetupExp
| SetRandomSeed (seed : Z)
| SetMatmulPrecision
| PrintParams
| GetAvailableDevices
| BuildSentenceEncoder
| BuildTaskConstructor (task_names : pyval)
| ConstructExp
| FlushEncoder
| BuildGNN (out_dim : Z)
| BuildHead (h : head_variant) (out_dim : Z)
| MakeTrainData
| MakeFullDmList
| BuildDataModule (gpu_size : nat)
| BuildEvalKit (k : eval_kit)
| BuildOptimizer
| BuildExpConfig
| BuildPredModel
| LightningFit (strategy : string).

(** A trace-and-exception monad: the trace of performed steps is
    threaded through, an exception stops the run. *)
Definition M (A : Type) : Type := list event -> list event * result A.

Definition ret {A} (a : A) : M A := fun tr => (tr, Ok a).
Definition bind {A B} (m : M A) (k : A -> M B) : M B :=
  fun tr => match m tr with
            | (tr', Ok a) => k a tr'
            | (tr', Err e) => (tr', Err e)
            end.
Definition emit (e : event) : M unit := fun tr => (tr ++ [e], Ok tt).
Definition lift {A} (r : result A) : M A := fun tr => (tr, r).

Notation "x <- m ;; k" := (bind m (fun x => k))
  (at level 100, m at next level, right associativity).
Notation "m ;;; k" := (bind m (fun _ => k))
  (at level 100, right associativity).

(** The fields of the merged parameter set that [main] reads to take
    its decisions. *)
Record params := mk_params {
  p_seed : Z;
  p_task_names : pyval;
  p_emb_dim : Z;
  p_rwpe : option Z;
  p_JK : string
}.

(** What the environment and the external constructors return: the
    number of GPUs found by [utils.get_available_devices] and the
    validation and test splits of [tasks.make_full_dm_list]. *)
Record run_env := mk_env {
  env_gpu_size : nat;
  env_val : list split;
  env_test : list split
}.

(** [main(params)], for runs in which the computation of [data_multiple]
    and [min_ratio] (lines 95-109) succeeds: it only feeds arguments of
    external calls and is not a separate step here.  Its own behaviour,
    including the [ValueError] that ends the run, is [ratio_param]. *)
Definition main (p : params) (env : run_env) : M unit :=
  emit GetAvailableDevices ;;;
  let gpu_size := env_gpu_size env in
  emit BuildSentenceEncoder ;;;
  emit (LoadYaml "configs/task_config.yaml") ;;;
  emit (LoadYaml "configs/data_config.yaml") ;;;
  let task_names := task_names_of (p_task_names p) in
  emit (BuildTaskConstructor task_names) ;;;
  emit ConstructExp ;;;
  emit FlushEncoder ;;;
  let out_dim := out_dim_of (p_emb_dim p) (p_rwpe p) in
  emit (BuildGNN out_dim) ;;;
  emit (BuildHead (bin_model_of (p_JK p)) out_dim) ;;;
  emit MakeTrainData ;;;
  emit MakeFullDmList ;;;
  emit (BuildDataModule gpu_size) ;;;
  kit <- lift (build_eval_kit (env_val env) (env_test env)) ;;
  emit (BuildEvalKit kit) ;;;
  emit BuildOptimizer ;;;
  emit BuildExpConfig ;;;
  emit BuildPredModel ;;;
  emit (LightningFit (strategy_of gpu_size)) ;;;
  ret tt.

(** The [if __name__ == "__main__"] block, from the merged parameters
    on: [override] is [params.override] of the argument parser. *)
Definition entry (override : option string) (p : params) (env : run_env) : M unit :=
  emit ParseArgs ;;;
  emit (LoadYaml "configs/default_config.yaml") ;;;
  match override with
  | Some path => emit (LoadYaml path)
  | None => ret tt
  end ;;;
  emit CombineDict ;;;
  emit MergeMod ;;;
  emit SetupExp ;;;
  emit (SetRandomSeed (p_seed p)) ;;;
  emit SetMatmulPrecision ;;;
  emit PrintParams ;;;
  main p env.

Definition run_trace (override : option string) (p : params) (env : run_env)
  : list event * result unit :=
  entry override p env [].

(** The steps that construct a model or a dataset. *)
Definition is_construction (e : event) : bool :=
  match e with
  | BuildSentenceEncoder | BuildTaskConstructor _ | ConstructExp
  | BuildGNN _ | BuildHead _ _ | MakeTrainData | MakeFullDmList
  | BuildDataModule _ => true
  | _ => false
  end.

(* ------------------------------------------------------------------ *)
(** ** Merging the configuration sources (lines 211-226) *)

(** A loaded YAML configuration or the merged parameter set: a flat
    mapping from option name to value. *)
Abbreviation config := (gmap string pyval).

(** Modelled from the spec: [combine_dict] of [gp.utils.utils], whose
    source is not part of the files examined.  The spec (sections 2 and
    3) describes it as merging the configurations key by key, a later
    configuration taking precedence. *)
Definition combine_dict (configs : list config) : config :=
  foldl (fun acc d => d ∪ acc) ∅ configs.

(** Modelled from the spec: [merge_mod] of [gp.utils.utils], whose
    source is not part of the files examined.  The spec describes the
    command-line overrides as [key=value] tokens applied after the files,
    later ones taking precedence; a token is given here already split
    into its key and its (string) value. *)
Fixpoint merge_mod (params : config) (opts : list (string * string)) : config :=
  match opts with
  | [] => params
  | (k, v) :: r => merge_mod (<[k := PyStr v]> params) r
  end.

(** Lines 211-226: [configs] is the default config, followed by the
    override file when [--override] is given; the result is
    [merge_mod(combine_dict( *configs), params.opts)]. *)
Definition merged_params (base : config) (override : option config)
    (opts : list (string * string)) : config :=
  let configs := base :: match override with Some o => [o] | None => [] end in
  merge_mod (combine_dict configs) opts.

(** The value the last command-line token for [k] assigns, if any. *)
Fixpoint cli_last (k : string) (opts : list (string * string)) : option string :=
  match opts with
  | [] => None
  | (k', v) :: r =>
      match cli_last k r with
      | Some x => Some x
      | None => if String.eqb k' k then Some v else None
      end
  end.

(* ------------------------------------------------------------------ *)
(** ** Data multiples and minimum ratios (lines 95-109) *)

(** The outcome of Python's [float(a)]: a value, or [ValueError]. *)
Inductive conv_result (A : Type) := Converted (a : A) | ValueError.
Arguments Converted {A} a.
Arguments ValueError {A}.

(** [[float(a) for a in pieces]]: the first piece [float] rejects raises. *)
Fixpoint map_float {F} (float : string -> conv_result F) (pieces : list string)
  : conv_result (list F) :=
  match pieces with
  | [] => Converted []
  | a :: r =>
      match float a with
      | ValueError => ValueError
      | Converted f =>
          match map_float float r with
          | ValueError => ValueError
          | Converted fs => Converted (f :: fs)
          end
      end
  end.

(** What [data_multiple] (or [min_ratio]) ends up holding: a list of
    floats parsed from a string, or a value taken over as it is. *)
Inductive ratio_arg (F : Type) := FloatList (l : list F) | RawValue (v : pyval).
Arguments FloatList {F} l.
Arguments RawValue {F} v.

(** Lines 95-101 for [d_multiple], and the identical lines 103-109 for
    [d_min_ratio]; [attr] is [None] when [hasattr(params, ...)] fails.
    [float] stands for Python's [float] on a string. *)
Definition ratio_param {F} (float : string -> conv_result F) (attr : option pyval)
  : conv_result (ratio_arg F) :=
  match attr with
  | None => Converted (RawValue (PyList [PyInt 1]))
  | Some v =>
      if py_isinstance_str v then
        match v with
        | PyStr s =>
            match map_float float (py_split "," s) with
            | ValueError => ValueError
            | Converted l => Converted (FloatList l)
            end
        | _ => Converted (RawValue v)
        end
      else Converted (RawValue v)
  end.

(** A small decimal parser standing for [float] on digit strings (used
    to evaluate the definitions on samples): digits only, at least one. *)
Fixpoint digits_value (l : list ascii) (acc : Z) : option Z :=
  match l with
  | [] => Some acc
  | c :: r =>
      let n := Z.of_nat (Ascii.nat_of_ascii c) in
      if (48 <=? n) && (n <=? 57) then digits_value r (acc * 10 + (n - 48))
      else None
  end.

Definition float_digits (a : string) : conv_result Z :=
  match String.list_ascii_of_string a with
  | [] => ValueError
  | l => match digits_value l 0 with Some z => Converted z | None => ValueError end
  end.

(* ------------------------------------------------------------------ *)
(** ** The shape of a run *)

(** The steps of [__main__] before the random seed is set. *)
Definition setup_steps (override : option string) : list event :=
  [ParseArgs; LoadYaml "configs/default_config.yaml"]
  ++ match override with Some path => [LoadYaml path] | None => [] end
  ++ [CombineDict; MergeMod; SetupExp].

(** The steps of [main] up to the data module. *)
Definition build_steps (p : params) (env : run_env) : list event :=
  let out_dim := out_dim_of (p_emb_dim p) (p_rwpe p) in
  [GetAvailableDevices; BuildSentenceEncoder;
   LoadYaml "configs/task_config.yaml"; LoadYaml "configs/data_config.yaml";
   BuildTaskConstructor (task_names_of (p_task_names p)); ConstructExp;
   FlushEncoder; BuildGNN out_dim; BuildHead (bin_model_of (p_JK p)) out_dim;
   MakeTrainData; MakeFullDmList; BuildDataModule (env_gpu_size env)].

(** Every step performed before the evaluation kit is built. *)
Definition pre_kit_steps (override : option string) (p : params) (env : run_env)
  : list event :=
  setup_steps override
  ++ [SetRandomSeed (p_seed p); SetMatmulPrecision; PrintParams]
  ++ build_steps p env.

(** The steps from the evaluation kit to the training driver. *)
Definition fit_steps (kit : eval_kit) (env : run_env) : list event :=
  [BuildEvalKit kit; BuildOptimizer; BuildExpConfig; BuildPredModel;
   LightningFit (strategy_of (env_gpu_size env))].

Lemma run_trace_eq override p env :
  run_trace override p env =
  match build_eval_kit (env_val env) (env_test env) with
  | Err e => (pre_kit_steps override p env, Err e)
  | Ok kit => (pre_kit_steps override p env ++ fit_steps kit env, Ok tt)
  end.
Proof.
  unfold run_trace, entry, main, pre_kit_steps, setup_steps, build_steps.
  destruct override; destruct (build_eval_kit _ _); reflexivity.
Qed.

Lemma setup_steps_no_construction override e :
  In e (setup_steps override) -> is_construction e = false.
Proof.
  unfold setup_steps; destruct override; simpl;
    intros H; repeat destruct H as [<- | H]; try reflexivity; contradiction.
Qed.

Lemma fit_steps_no_head kit env h d :
  ~ In (BuildHead h d) (fit_steps kit env).
Proof. simpl; intros H; repeat destruct H as [H | H]; discriminate || contradiction. Qed.

Lemma fit_steps_no_gnn kit env d :
  ~ In (BuildGNN d) (fit_steps kit env).
Proof. simpl; intros H; repeat destruct H as [H | H]; discriminate || contradiction. Qed.

Lemma setup_steps_no_head override h d :
  ~ In (BuildHead h d) (setup_steps override).
Proof.
  intros H; apply setup_steps_no_construction in H; discriminate.
Qed.

Lemma setup_steps_no_gnn override d :
  ~ In (BuildGNN d) (setup_steps override).
Proof.
  intros H; apply setup_steps_no_construction in H; discriminate.
Qed.

Lemma setup_steps_no_fit override s :
  ~ In (LightningFit s) (setup_steps override).
Proof.
  unfold setup_steps; destruct override; simpl;
    intros H; repeat destruct H as [H | H]; discriminate || contradiction.
Qed.

(** The trace of a run, whatever its outcome. *)
Definition trace_of (override : option string) (p : params) (env : run_env) :=
  fst (run_trace override p env).

Lemma in_trace_of override p env e :
  In e (trace_of override p env) ->
  In e (pre_kit_steps override p env)
  \/ exists kit, build_eval_kit (env_val env) (env_test env) = Ok kit
                 /\ In e (fit_steps kit env).
Proof.
  unfold trace_of; rewrite run_trace_eq.
  destruct (build_eval_kit _ _) as [kit|err] eqn:Hk; cbn [fst].
  - rewrite in_app_iff; intros [H|H]; [tauto|right; exists kit; auto].
  - tauto.
Qed.

Lemma head_in_pre_kit override p env h d :
  In (BuildHead h d) (pre_kit_steps override p env) ->
  h = bin_model_of (p_JK p) /\ d = out_dim_of (p_emb_dim p) (p_rwpe p).
Proof.
  unfold pre_kit_steps; rewrite !in_app_iff.
  intros [H|H]; [exfalso; exact (setup_steps_no_head _ _ _ H)|].
  destruct H as [H|H]; unfold build_steps in H; simpl in H;
    repeat destruct H as [H|H]; try discriminate; try contradiction.
  injection H as -> ->; auto.
Qed.

Lemma gnn_in_pre_kit override p env d :
  In (BuildGNN d) (pre_kit_steps override p env) ->
  d = out_dim_of (p_emb_dim p) (p_rwpe p).
Proof.
  unfold pre_kit_steps; rewrite !in_app_iff.
  intros [H|H]; [exfalso; exact (setup_steps_no_gnn _ _ H)|].
  destruct H as [H|H]; unfold build_steps in H; simpl in H;
    repeat destruct H as [H|H]; try discriminate; try contradiction.
  injection H as ->; auto.
Qed.

Lemma head_in_trace override p env h d :
  In (BuildHead h d) (trace_of override p env) ->
  h = bin_model_of (p_JK p) /\ d = out_dim_of (p_emb_dim p) (p_rwpe p).
Proof.
  intros H; apply in_trace_of in H as [H | (kit & _ & H)].
  - exact (head_in_pre_kit _ _ _ _ _ H).
  - exfalso; exact (fit_steps_no_head _ _ _ _ H).
Qed.

Lemma gnn_in_trace override p env d :
  In (BuildGNN d) (trace_of override p env) ->
  d = out_dim_of (p_emb_dim p) (p_rwpe p).
Proof.
  intros H; apply in_trace_of in H as [H | (kit & _ & H)].
  - exact (gnn_in_pre_kit _ _ _ _ H).
  - exfalso; exact (fit_steps_no_gnn _ _ _ H).
Qed.

(** Every run reaches the head construction. *)
Lemma head_built override p env :
  In (BuildHead (bin_model_of (p_JK p)) (out_dim_of (p_emb_dim p) (p_rwpe p)))
     (trace_of override p env).
Proof.
  unfold trace_of; rewrite run_trace_eq.
  assert (Hin : In (BuildHead (bin_model_of (p_JK p)) (out_dim_of (p_emb_dim p) (p_rwpe p)))
                   (pre_kit_steps override p env)).
  { unfold pre_kit_steps; rewrite !in_app_iff; right; right; simpl; tauto. }
  destruct (build_eval_kit _ _); cbn [fst]; [apply in_app_iff; left|]; exact Hin.
Qed.

Lemma fit_in_trace override p env s :
  In (LightningFit s) (trace_of override p env) ->
  s = strategy_of (env_gpu_size env).
Proof.
  intros H; apply in_trace_of in H as [H | (kit & _ & H)].
  - exfalso; unfold pre_kit_steps in H; rewrite !in_app_iff in H.
    destruct H as [H|H]; [exact (setup_steps_no_fit _ _ H)|].
    destruct H as [H|H]; unfold build_steps in H; simpl in H;
      repeat destruct H as [H|H]; discriminate || contradiction.
  - simpl in H; repeat destruct H as [H|H]; try discriminate; try contradiction.
    injection H as <-; reflexivity.
Qed.

(* ------------------------------------------------------------------ *)
(** ** Claims about model assembly and the training driver *)

(** C3: the head variant of every run is chosen from the jump-knowledge
    mode alone: [BinGraphAttModel] when [params.JK] is ["none"],
    [BinGraphModel] for any other value. *)
Theorem head_variant_from_JK (override : option string) (p : params)
    (env : run_env) (h : head_variant) (d : Z) :
  In (BuildHead h d) (trace_of override p env) ->
  (p_JK p = "none" -> h = BinGraphAttModel)
  /\ (p_JK p <> "none" -> h = BinGraphModel).
Proof.
  intros H; apply head_in_trace in H as [-> _]; unfold bin_model_of.
  split; intros HJK.
  - rewrite HJK; reflexivity.
  - destruct (String.eqb_spec (p_JK p) "none"); [contradiction | reflexivity].
Qed.

Lemma head_variant_from_JK_witness :
  let p := mk_params 0 (PyStr "cora") 128 None "none" in
  let env := mk_env 1 [] [] in
  In (BuildHead BinGraphAttModel 128) (trace_of None p env)
  /\ ((p_JK p = "none" -> BinGraphAttModel = BinGraphAttModel)
      /\ (p_JK p <> "none" -> BinGraphAttModel = BinGraphModel)).
Proof.
  intros p env.
  assert (Hin : In (BuildHead BinGraphAttModel 128) (trace_of None p env))
    by (vm_compute; tauto).
  split; [exact Hin | exact (head_variant_from_JK None p env _ _ Hin)].
Defined.

(** C4: the output dimension given to the GNN encoder is
    [emb_dim + rwpe] when [rwpe] is set, and [emb_dim] when [rwpe] is
    [None] or zero. *)
Theorem out_dim_spec (override : option string) (p : params)
    (env : run_env) (d : Z) :
  In (BuildGNN d) (trace_of override p env) ->
  (forall r, p_rwpe p = Some r -> d = p_emb_dim p + r)
  /\ (p_rwpe p = None \/ p_rwpe p = Some 0 -> d = p_emb_dim p).
Proof.
  intros H; apply gnn_in_trace in H as ->; unfold out_dim_of.
  split.
  - intros r ->; reflexivity.
  - intros [-> | ->]; lia.
Qed.

Lemma out_dim_spec_witness :
  let p := mk_params 0 (PyStr "cora") 768 (Some 32) "sum" in
  let env := mk_env 1 [] [] in
  In (BuildGNN 800) (trace_of None p env)
  /\ ((forall r, p_rwpe p = Some r -> 800 = p_emb_dim p + r)
      /\ (p_rwpe p = None \/ p_rwpe p = Some 0 -> 800 = p_emb_dim p)).
Proof.
  intros p env.
  assert (Hin : In (BuildGNN 800) (trace_of None p env)) by (vm_compute; tauto).
  split; [exact Hin | exact (out_dim_spec None p env _ Hin)].
Defined.

(** C6: the training driver is started with ["deepspeed_stage_2"] exactly
    when more than one GPU is available, and with ["auto"] otherwise. *)
Theorem strategy_spec (override : option string) (p : params)
    (env : run_env) (s : string) :
  In (LightningFit s) (trace_of override p env) ->
  (s = "deepspeed_stage_2" <-> (1 < env_gpu_size env)%nat)
  /\ (s = "auto" <-> (env_gpu_size env <= 1)%nat).
Proof.
  intros H; apply fit_in_trace in H as ->; unfold strategy_of.
  destruct (Nat.ltb_spec 1 (env_gpu_size env)); split; split;
    intros; try lia; try reflexivity; discriminate.
Qed.

Lemma strategy_spec_witness :
  let p := mk_params 0 (PyStr "cora") 768 None "sum" in
  let env := mk_env 4 [mk_split "v" "acc" 7 "f"] [mk_split "t" "acc" 7 "f"] in
  In (LightningFit "deepspeed_stage_2") (trace_of None p env)
  /\ (("deepspeed_stage_2" = "deepspeed_stage_2" <-> (1 < env_gpu_size env)%nat)
      /\ ("deepspeed_stage_2" = "auto" <-> (env_gpu_size env <= 1)%nat)).
Proof.
  intros p env.
  assert (Hin : In (LightningFit "deepspeed_stage_2") (trace_of None p env))
    by (vm_compute; tauto).
  split; [exact Hin | exact (strategy_spec None p env _ Hin)].
Defined.

(* ------------------------------------------------------------------ *)
(** ** Facts about the evaluation-kit builder *)

(** The four metric kinds the loop of lines 132-140 handles. *)
Definition known_metric (m : string) : bool :=
  String.eqb m "acc" || String.eqb m "auc" || String.eqb m "apr"
  || String.eqb m "aucmulti".

(** The scorer [sc] is the one of the matching type for split [dt]. *)
Definition scorer_matches (dt : split) (sc : scorer) : Prop :=
  (metric dt = "acc" /\ sc = Accuracy_multiclass (classes dt))
  \/ (metric dt = "auc" /\ sc = AUROC_binary)
  \/ (metric dt = "apr" /\ sc = MultiApr (classes dt))
  \/ (metric dt = "aucmulti" /\ sc = MultiAuc (classes dt)).

Lemma build_evlter_app l1 l2 :
  build_evlter (l1 ++ l2) = build_evlter l1 ++ build_evlter l2.
Proof.
  induction l1 as [|dt r IH]; simpl; [reflexivity|].
  rewrite IH, app_assoc; reflexivity.
Qed.

Lemma scorers_for_known dt :
  known_metric (metric dt) = true ->
  exists sc, scorers_for dt = [sc] /\ scorer_matches dt sc.
Proof.
  unfold known_metric, scorers_for, scorer_matches.
  destruct (String.eqb_spec (metric dt) "acc"); [eexists; split; eauto|].
  destruct (String.eqb_spec (metric dt) "auc"); [eexists; split; eauto|].
  destruct (String.eqb_spec (metric dt) "apr"); [eexists; split; eauto 6|].
  destruct (String.eqb_spec (metric dt) "aucmulti"); [eexists; split; eauto 8|].
  discriminate.
Qed.

Lemma scorers_for_unknown dt :
  known_metric (metric dt) = false -> scorers_for dt = [].
Proof.
  unfold known_metric, scorers_for.
  destruct (String.eqb (metric dt) "acc"), (String.eqb (metric dt) "auc"),
    (String.eqb (metric dt) "apr"), (String.eqb (metric dt) "aucmulti");
    simpl; congruence.
Qed.

Lemma length_scorers_for dt :
  (length (scorers_for dt) <= 1)%nat.
Proof.
  unfold scorers_for.
  repeat match goal with |- context [if ?b then _ else _] => destruct b end;
    simpl; lia.
Qed.

Lemma length_build_evlter_le l :
  (length (build_evlter l) <= length l)%nat.
Proof.
  induction l as [|dt r IH]; simpl; [lia|].
  rewrite length_app; pose proof (length_scorers_for dt); lia.
Qed.

Lemma build_evlter_known l :
  Forall (fun dt => known_metric (metric dt) = true) l ->
  Forall2 scorer_matches l (build_evlter l).
Proof.
  induction 1 as [|dt r Hdt _ IH]; simpl; [constructor|].
  destruct (scorers_for_known dt Hdt) as (sc & -> & Hm); simpl.
  constructor; assumption.
Qed.

Lemma length_build_evlter_unknown l :
  Exists (fun dt => known_metric (metric dt) = false) l ->
  (length (build_evlter l) < length l)%nat.
Proof.
  induction 1 as [dt r Hdt | dt r _ IH]; simpl; rewrite length_app.
  - rewrite scorers_for_unknown by assumption; simpl.
    pose proof (length_build_evlter_le r); lia.
  - pose proof (length_scorers_for dt); lia.
Qed.

Lemma build_eval_kit_ok val test kit :
  build_eval_kit val test = Ok kit ->
  exists v0 t0,
    py_first (map state_name val) = Ok v0 /\ py_first (map state_name test) = Ok t0 /\
    kit = mk_eval_kit (map metric (val ++ test)) (build_evlter (val ++ test))
            (map eval_func (val ++ test)) (map state_name val ++ map state_name test)
            v0 t0.
Proof.
  unfold build_eval_kit.
  destruct (py_first (map state_name val)) as [v0|]; [|discriminate].
  destruct (py_first (map state_name test)) as [t0|]; [|discriminate].
  intros H; injection H as <-; eauto.
Qed.

Lemma pre_kit_before_kit override p env e :
  In e (pre_kit_steps override p env) ->
  match e with BuildEvalKit _ | LightningFit _ => False | _ => True end.
Proof.
  unfold pre_kit_steps, setup_steps, build_steps; destruct override; simpl;
    intros H; repeat destruct H as [<- | H]; simpl; trivial; contradiction.
Qed.

Lemma task_names_in_trace override p env tn :
  In (BuildTaskConstructor tn) (trace_of override p env) ->
  tn = task_names_of (p_task_names p).
Proof.
  intros H; apply in_trace_of in H as [H | (kit & _ & H)].
  - unfold pre_kit_steps, setup_steps, build_steps in H; destruct override;
      simpl in H; repeat destruct H as [H|H]; try discriminate; try contradiction;
      injection H as <-; reflexivity.
  - simpl in H; repeat destruct H as [H|H]; discriminate || contradiction.
Qed.

Lemma trace_shape override p env :
  exists rest, trace_of override p env
               = setup_steps override ++ SetRandomSeed (p_seed p) :: rest.
Proof.
  unfold trace_of; rewrite run_trace_eq; unfold pre_kit_steps.
  destruct (build_eval_kit _ _); cbn [fst]; rewrite <- ?app_assoc; simpl; eexists; reflexivity.
Qed.

(** If [x] follows a prefix [A] free of construction steps and is not one
    itself, every construction step of the list comes after [x]. *)
Lemma construction_after (A B pre post : list event) (x e : event) :
  pre ++ e :: post = A ++ x :: B ->
  (forall y, In y A -> is_construction y = false) ->
  is_construction x = false ->
  is_construction e = true ->
  In x pre.
Proof.
  revert pre; induction A as [|a A IH]; intros pre Heq HA Hx He.
  - destruct pre as [|p0 pre]; simpl in Heq; injection Heq as <- _.
    + congruence.
    + left; reflexivity.
  - destruct pre as [|p0 pre]; simpl in Heq; injection Heq as Ha Hr.
    + subst a; rewrite (HA e (or_introl eq_refl)) in He; discriminate.
    + right; apply (IH pre Hr); auto.
      intros y Hy; apply HA; right; exact Hy.
Qed.

Lemma merge_mod_lookup (opts : list (string * string)) (acc : config) (k : string) :
  merge_mod acc opts !! k
  = match cli_last k opts with Some v => Some (PyStr v) | None => acc !! k end.
Proof.
  revert acc; induction opts as [|[k' v] r IH]; intros acc; simpl; [reflexivity|].
  rewrite IH; destruct (cli_last k r); [reflexivity|].
  destruct (String.eqb_spec k' k) as [->|Hne].
  - apply lookup_insert_eq.
  - apply lookup_insert_ne; exact Hne.
Qed.

Lemma combine_dict_lookup (base : config) (override : option config) (k : string) :
  combine_dict (base :: match override with Some o => [o] | None => [] end) !! k
  = match override ≫= (lookup k) with Some v => Some v | None => base !! k end.
Proof.
  unfold combine_dict; destruct override as [o|]; simpl.
  - rewrite lookup_union, lookup_union, lookup_empty.
    destruct (o !! k), (base !! k); reflexivity.
  - rewrite lookup_union, lookup_empty; destruct (base !! k); reflexivity.
Qed.

(* ------------------------------------------------------------------ *)
(** ** Claims about the evaluation kit *)

(** C1: a split whose metric kind is one of the four known kinds adds
    exactly one scorer, of the type matching its kind ([Accuracy] with
    [num_classes = classes] for "acc", binary [AUROC] for "auc",
    [MultiApr] and [MultiAuc] with [num_labels = classes] for "apr" and
    "aucmulti"), whatever the splits around it; and when every split has
    a known kind, the kit holds one matching scorer per split, in split
    order, so the scorer list is as long as the split list. *)
Theorem metric_kit_known :
  (forall (pre post : list split) (dt : split),
      known_metric (metric dt) = true ->
      exists sc, scorer_matches dt sc
                 /\ build_evlter (pre ++ dt :: post)
                    = build_evlter pre ++ sc :: build_evlter post)
  /\ (forall (val test : list split) (kit : eval_kit),
        build_eval_kit val test = Ok kit ->
        Forall (fun dt => known_metric (metric dt) = true) (val ++ test) ->
        Forall2 scorer_matches (val ++ test) (kit_evlter kit)
        /\ length (kit_evlter kit) = length (val ++ test)).
Proof.
  split.
  - intros pre post dt Hdt.
    destruct (scorers_for_known dt Hdt) as (sc & Hsc & Hm).
    exists sc; split; [exact Hm|].
    rewrite build_evlter_app; simpl; rewrite Hsc; reflexivity.
  - intros val test kit Hk Hknown.
    destruct (build_eval_kit_ok _ _ _ Hk) as (v0 & t0 & _ & _ & ->); simpl.
    pose proof (build_evlter_known _ Hknown) as HF.
    split; [exact HF|].
    symmetry; exact (Forall2_length _ _ _ HF).
Qed.

Lemma metric_kit_known_witness :
  let val := [mk_split "cora_val" "acc" 7 "f"; mk_split "hiv_val" "auc" 2 "g"] in
  let test := [mk_split "pcba_test" "apr" 128 "h"; mk_split "chem_test" "aucmulti" 12 "h"] in
  let kit := mk_eval_kit ["acc"; "auc"; "apr"; "aucmulti"]
               [Accuracy_multiclass 7; AUROC_binary; MultiApr 128; MultiAuc 12]
               ["f"; "g"; "h"; "h"]
               ["cora_val"; "hiv_val"; "pcba_test"; "chem_test"]
               "cora_val" "pcba_test" in
  (exists sc, scorer_matches (mk_split "x_val" "apr" 5 "f") sc
              /\ build_evlter ([mk_split "w_val" "f1" 3 "f"] ++ mk_split "x_val" "apr" 5 "f" :: test)
                 = build_evlter [mk_split "w_val" "f1" 3 "f"] ++ sc :: build_evlter test)
  /\ build_eval_kit val test = Ok kit
  /\ Forall2 scorer_matches (val ++ test) (kit_evlter kit)
  /\ length (kit_evlter kit) = length (val ++ test).
Proof.
  intros val test kit.
  destruct metric_kit_known as (H1 & H2).
  assert (Hk : build_eval_kit val test = Ok kit) by reflexivity.
  assert (Hn : Forall (fun dt => known_metric (metric dt) = true) (val ++ test))
    by (repeat constructor).
  split; [exact (H1 [mk_split "w_val" "f1" 3 "f"] test (mk_split "x_val" "apr" 5 "f") eq_refl)|].
  split; [exact Hk|].
  exact (H2 val test kit Hk Hn).
Defined.

(** C2: a split whose metric kind is none of the four known kinds adds
    no scorer, building the kit raises no error because of it, and the
    kit's scorer list is then shorter than its list of evaluation
    metrics (one per split). *)
Theorem metric_kit_unknown :
  (forall (pre post : list split) (dt : split),
      known_metric (metric dt) = false ->
      build_evlter (pre ++ dt :: post) = build_evlter pre ++ build_evlter post)
  /\ (forall (v : split) (vs : list split) (t : split) (ts : list split),
        exists kit, build_eval_kit (v :: vs) (t :: ts) = Ok kit)
  /\ (forall (val test : list split) (kit : eval_kit),
        build_eval_kit val test = Ok kit ->
        Exists (fun dt => known_metric (metric dt) = false) (val ++ test) ->
        (length (kit_evlter kit) < length (kit_eval_metric kit))%nat).
Proof.
  split; [|split].
  - intros pre post dt Hdt.
    rewrite build_evlter_app; simpl; rewrite scorers_for_unknown by exact Hdt.
    reflexivity.
  - intros v vs t ts; eexists; reflexivity.
  - intros val test kit Hk Hex.
    destruct (build_eval_kit_ok _ _ _ Hk) as (v0 & t0 & _ & _ & ->); simpl.
    rewrite length_map; exact (length_build_evlter_unknown _ Hex).
Qed.

Lemma metric_kit_unknown_witness :
  let val := [mk_split "cora_val" "f1" 7 "f"] in
  let test := [mk_split "cora_test" "acc" 7 "f"] in
  build_eval_kit val test
    = Ok (mk_eval_kit ["f1"; "acc"] [Accuracy_multiclass 7] ["f"; "f"]
            ["cora_val"; "cora_test"] "cora_val" "cora_test")
  /\ build_evlter ([] ++ mk_split "cora_val" "f1" 7 "f" :: test) = build_evlter test
  /\ (1 < 2)%nat.
Proof.
  intros val test.
  destruct metric_kit_unknown as (H1 & _ & H3).
  assert (Hk : build_eval_kit val test
    = Ok (mk_eval_kit ["f1"; "acc"] [Accuracy_multiclass 7] ["f"; "f"]
            ["cora_val"; "cora_test"] "cora_val" "cora_test")) by reflexivity.
  split; [exact Hk|]; split.
  - exact (H1 [] test (mk_split "cora_val" "f1" 7 "f") eq_refl).
  - apply (H3 val test _ Hk); apply Exists_cons_hd; reflexivity.
Defined.

(** C5: with non-empty validation and test split lists, the kit's
    validation monitor is the state name of the first validation split
    and its test monitor the state name of the first test split. *)
Theorem monitor_states (v : split) (vs : list split) (t : split) (ts : list split) :
  exists kit, build_eval_kit (v :: vs) (t :: ts) = Ok kit
              /\ kit_val_monitor_state kit = state_name v
              /\ kit_test_monitor_state kit = state_name t.
Proof.
  eexists; split; [reflexivity|]; split; reflexivity.
Qed.

(** C9: when the validation or the test split list is empty, building
    the kit raises [IndexError] (reading [val_state[0]] or
    [test_state[0]]), the run stops there with that exception, and
    neither the kit nor the training driver appears in its trace. *)
Theorem empty_split_index_error (override : option string) (p : params)
    (env : run_env) :
  env_val env = [] \/ env_test env = [] ->
  build_eval_kit (env_val env) (env_test env) = Err IndexError
  /\ run_trace override p env = (pre_kit_steps override p env, Err IndexError)
  /\ (forall k, ~ In (BuildEvalKit k) (trace_of override p env))
  /\ (forall s, ~ In (LightningFit s) (trace_of override p env)).
Proof.
  intros Hempty.
  assert (Hk : build_eval_kit (env_val env) (env_test env) = Err IndexError).
  { unfold build_eval_kit.
    destruct Hempty as [-> | ->]; [reflexivity|].
    destruct (py_first (map state_name (env_val env))) as [|[]]; reflexivity. }
  assert (Hr : run_trace override p env = (pre_kit_steps override p env, Err IndexError))
    by (rewrite run_trace_eq, Hk; reflexivity).
  split; [exact Hk|]; split; [exact Hr|].
  unfold trace_of; rewrite Hr; cbn [fst].
  split; intros x H; apply pre_kit_before_kit in H; exact H.
Qed.

Lemma empty_split_index_error_witness :
  let p := mk_params 42 (PyStr "cora_node, arxiv") 768 None "none" in
  let env := mk_env 2 [mk_split "cora_val" "acc" 7 "f"] [] in
  (env_val env = [] \/ env_test env = [])
  /\ build_eval_kit (env_val env) (env_test env) = Err IndexError.
Proof.
  intros p env.
  assert (H : env_val env = [] \/ env_test env = []) by (right; reflexivity).
  split; [exact H|].
  exact (proj1 (empty_split_index_error None p env H)).
Defined.

(* ------------------------------------------------------------------ *)
(** ** Claims about [__main__] and the task names *)

(** C7: the merged parameter set is built key by key, later sources
    winning: a key set on the command line takes its last command-line
    value, otherwise its value in the override file, otherwise its value
    in the base file; a key found in one source only keeps that value. *)
Theorem merged_last_write_wins (base : config) (override : option config)
    (opts : list (string * string)) (k : string) :
  merged_params base override opts !! k
  = match cli_last k opts with
    | Some v => Some (PyStr v)
    | None => match override ≫= (lookup k) with
              | Some v => Some v
              | None => base !! k
              end
    end.
Proof.
  unfold merged_params; rewrite merge_mod_lookup, combine_dict_lookup.
  reflexivity.
Qed.

(** C8: the random seed of the merged parameters is set before every
    model or dataset construction step of a run: in the trace of any run,
    each construction step is preceded by [SetRandomSeed params.seed]. *)
Theorem seed_before_construction (override : option string) (p : params)
    (env : run_env) (pre post : list event) (e : event) :
  trace_of override p env = pre ++ e :: post ->
  is_construction e = true ->
  In (SetRandomSeed (p_seed p)) pre.
Proof.
  intros Htr He.
  destruct (trace_shape override p env) as [rest Hshape].
  rewrite Hshape in Htr.
  apply (construction_after (setup_steps override) rest pre post _ e);
    [symmetry; exact Htr | | reflexivity | exact He].
  intros y Hy; exact (setup_steps_no_construction _ _ Hy).
Qed.

Lemma seed_before_construction_witness :
  let p := mk_params 42 (PyStr "cora_node") 768 None "none" in
  let env := mk_env 1 [mk_split "cora_val" "acc" 7 "f"] [mk_split "cora_test" "acc" 7 "f"] in
  let pre := [ParseArgs; LoadYaml "configs/default_config.yaml"; CombineDict;
              MergeMod; SetupExp; SetRandomSeed 42; SetMatmulPrecision;
              PrintParams; GetAvailableDevices] in
  (exists post, trace_of None p env = pre ++ BuildSentenceEncoder :: post)
  /\ In (SetRandomSeed 42) pre.
Proof.
  intros p env pre.
  assert (H : exists post, trace_of None p env = pre ++ BuildSentenceEncoder :: post)
    by (eexists; vm_compute; reflexivity).
  split; [exact H|].
  destruct H as [post Hpost].
  exact (seed_before_construction None p env pre post BuildSentenceEncoder Hpost eq_refl).
Defined.

(** C10: the task names handed to the task constructor are, when
    [params.task_names] is a string, its comma-separated pieces each
    stripped of surrounding whitespace, and otherwise the parameter value
    itself. *)
Theorem task_names_spec (override : option string) (p : params)
    (env : run_env) (tn : pyval) :
  In (BuildTaskConstructor tn) (trace_of override p env) ->
  (forall s, p_task_names p = PyStr s ->
             tn = PyList (map (fun a => PyStr (py_strip a)) (py_split "," s)))
  /\ (py_isinstance_str (p_task_names p) = false -> tn = p_task_names p).
Proof.
  intros H; apply task_names_in_trace in H as ->; unfold task_names_of.
  split.
  - intros s ->; reflexivity.
  - intros ->; reflexivity.
Qed.

Lemma task_names_spec_witness :
  let p := mk_params 0 (PyStr " cora_node , arxiv,	pubmed_link ") 768 None "none" in
  let env := mk_env 1 [] [] in
  In (BuildTaskConstructor (PyList [PyStr "cora_node"; PyStr "arxiv"; PyStr "pubmed_link"]))
     (trace_of None p env)
  /\ PyList [PyStr "cora_node"; PyStr "arxiv"; PyStr "pubmed_link"]
     = PyList (map (fun a => PyStr (py_strip a))
                 (py_split "," " cora_node , arxiv,	pubmed_link ")).
Proof.
  intros p env.
  assert (Hin : In (BuildTaskConstructor (PyList [PyStr "cora_node"; PyStr "arxiv"; PyStr "pubmed_link"]))
                   (trace_of None p env)) by (vm_compute; tauto).
  split; [exact Hin|].
  exact (proj1 (task_names_spec None p env _ Hin) _ eq_refl).
Defined.

(** The string helpers behave as Python's [str.split(",")] and
    [str.strip()] on sample inputs. *)
Example py_split_keeps_empty_pieces : py_split "," ",a,,b " = [""; "a"; ""; "b "].
Proof. reflexivity. Qed.

Example py_split_empty : py_split "," "" = [""].
Proof. reflexivity. Qed.

Example py_strip_sample : py_strip "  arxiv 	" = "arxiv".
Proof. reflexivity. Qed.

Example py_strip_inner_space : py_strip " a b " = "a b".
Proof. reflexivity. Qed.

(** Non-ASCII whitespace is stripped too: ['a\xa0'.strip() == 'a'] and
    ['a\xa0,\u3000b'] gives the task names [['a', 'b']]. *)
Example py_strip_nbsp : py_strip (String.append "a" nbsp) = "a".
Proof. reflexivity. Qed.

Example task_names_unicode_space :
  task_names_of (PyStr (String.append "a"
    (String.append nbsp
      (String.append ","
        (String.append
           (String.string_of_list_ascii
              (map Ascii.ascii_of_nat [227; 128; 128]%nat))
           "b")))))
  = PyList [PyStr "a"; PyStr "b"].
Proof. reflexivity. Qed.

(* ------------------------------------------------------------------ *)
(** ** Lemmas on [str.split] and [str.strip] *)

Lemma split_l_nonempty sep l cur : split_l sep l cur <> [].
Proof.
  revert cur; induction l as [|c r IH]; intros cur; simpl; [discriminate|].
  destruct (Ascii.eqb c sep); [discriminate | apply IH].
Qed.

Lemma length_split_l sep l cur :
  length (split_l sep l cur) = S (count_occ ascii_dec l sep).
Proof.
  revert cur; induction l as [|c r IH]; intros cur; simpl; [reflexivity|].
  destruct (Ascii.eqb_spec c sep) as [->|Hne].
  - simpl; rewrite IH; destruct (ascii_dec sep sep); [reflexivity|congruence].
  - rewrite IH; destruct (ascii_dec c sep); [congruence|reflexivity].
Qed.

Lemma split_l_no_sep sep l cur :
  ~ In sep cur -> Forall (fun piece => ~ In sep piece) (split_l sep l cur).
Proof.
  revert cur; induction l as [|c r IH]; intros cur Hcur; simpl.
  - constructor; [rewrite <- in_rev; exact Hcur | constructor].
  - destruct (Ascii.eqb_spec c sep) as [->|Hne].
    + constructor; [rewrite <- in_rev; exact Hcur | apply IH; intros []].
    + apply IH; intros [H|H]; [congruence | contradiction].
Qed.

Lemma split_l_snoc_sep sep l cur :
  split_l sep (l ++ [sep]) cur = split_l sep l cur ++ [[]].
Proof.
  revert cur; induction l as [|c r IH]; intros cur; simpl.
  - rewrite Ascii.eqb_refl; reflexivity.
  - destruct (Ascii.eqb c sep); [simpl; f_equal|]; apply IH.
Qed.

Lemma string_of_list_ascii_app (a b : list ascii) :
  String.string_of_list_ascii (a ++ b)
  = (String.string_of_list_ascii a ++ String.string_of_list_ascii b)%string.
Proof. induction a as [|c r IH]; simpl; [reflexivity | rewrite IH; reflexivity]. Qed.

Lemma list_ascii_of_string_app (a b : string) :
  String.list_ascii_of_string (a ++ b)
  = String.list_ascii_of_string a ++ String.list_ascii_of_string b.
Proof. induction a as [|c r IH]; simpl; [reflexivity | rewrite IH; reflexivity]. Qed.

Lemma concat_split_l l cur :
  String.concat "," (map String.string_of_list_ascii (split_l "," l cur))
  = String.string_of_list_ascii (rev cur ++ l).
Proof.
  revert cur; induction l as [|c r IH]; intros cur; simpl.
  - rewrite app_nil_r; reflexivity.
  - destruct (Ascii.eqb_spec c ",") as [->|Hne].
    + pose proof (split_l_nonempty "," r []) as Hne.
      destruct (split_l "," r []) as [|x xs] eqn:Hs; [contradiction|].
      specialize (IH []); rewrite Hs in IH; simpl in IH |- *.
      rewrite IH, string_of_list_ascii_app; reflexivity.
    + rewrite IH; simpl; rewrite <- app_assoc; reflexivity.
Qed.

Lemma is_prefix_app p l : is_prefix p l = true <-> exists r, l = p ++ r.
Proof.
  revert l; induction p as [|a p IH]; intros l; simpl.
  - split; [intros _; exists l; reflexivity | reflexivity].
  - destruct l as [|b l].
    + split; [discriminate | intros (r & H); discriminate].
    + rewrite andb_true_iff, IH.
      split.
      * intros [Hab (r & ->)]; apply Ascii.eqb_eq in Hab as ->; exists r; reflexivity.
      * intros (r & H); injection H as -> ->; split; [apply Ascii.eqb_refl | eauto].
Qed.

Lemma strip_one_some pats l r :
  strip_one pats l = Some r -> exists p, In p pats /\ l = p ++ r.
Proof.
  induction pats as [|p ps IH]; simpl; [discriminate|].
  destruct (is_prefix p l) eqn:Hp.
  - intros H; injection H as <-.
    apply is_prefix_app in Hp as (r & ->).
    exists p; split; [left; reflexivity|].
    rewrite skipn_app, skipn_all, Nat.sub_diag; reflexivity.
  - intros H; destruct (IH H) as (q & Hq & Hl); eauto.
Qed.

Lemma strip_one_none pats l :
  strip_one pats l = None -> forall p, In p pats -> is_prefix p l = false.
Proof.
  induction pats as [|q ps IH]; simpl; [intros _ p []|].
  destruct (is_prefix q l) eqn:Hq; [discriminate|].
  intros H p [<- | Hp]; [exact Hq | exact (IH H p Hp)].
Qed.

Lemma strip_prefixes_suffix pats f l :
  exists pre, l = pre ++ strip_prefixes pats f l.
Proof.
  revert l; induction f as [|f IH]; intros l; simpl; [exists []; reflexivity|].
  destruct (strip_one pats l) as [r|] eqn:Hs; [|exists []; reflexivity].
  apply strip_one_some in Hs as (p & _ & ->).
  destruct (IH r) as (pre & Hr).
  exists (p ++ pre); rewrite <- app_assoc, <- Hr; reflexivity.
Qed.

Lemma strip_prefixes_clean pats f l :
  (forall p, In p pats -> p <> []) ->
  (length l <= f)%nat ->
  forall p, In p pats -> is_prefix p (strip_prefixes pats f l) = false.
Proof.
  intros Hne; revert l; induction f as [|f IH]; intros l Hlen p Hp; simpl.
  - destruct l; [|simpl in Hlen; lia].
    destruct p; [exfalso; exact (Hne _ Hp eq_refl) | reflexivity].
  - destruct (strip_one pats l) as [r|] eqn:Hs.
    + apply IH; [|exact Hp].
      apply strip_one_some in Hs as (q & Hq & ->).
      rewrite length_app in Hlen.
      destruct q; [exfalso; exact (Hne _ Hq eq_refl) | simpl in Hlen; lia].
    + exact (strip_one_none _ _ Hs p Hp).
Qed.

Lemma py_whitespace_nonempty w : In w py_whitespace_utf8 -> w <> [].
Proof.
  assert (H : forallb (fun p => Nat.ltb 0 (length p)) py_whitespace_utf8 = true)
    by reflexivity.
  rewrite forallb_forall in H; intros Hw ->; specialize (H [] Hw); discriminate.
Qed.

Lemma py_whitespace_rev_nonempty w : In w (map (@rev ascii) py_whitespace_utf8) -> w <> [].
Proof.
  intros Hw; apply in_map_iff in Hw as (v & <- & Hv).
  intros H; apply (py_whitespace_nonempty v Hv).
  rewrite <- (rev_involutive v), H; reflexivity.
Qed.

Lemma lstrip_l_clean l w :
  In w py_whitespace_utf8 -> is_prefix w (lstrip_l l) = false.
Proof.
  apply strip_prefixes_clean; [exact py_whitespace_nonempty | lia].
Qed.

Lemma rstrip_l_clean l w :
  In w py_whitespace_utf8 -> is_prefix (rev w) (rev (rstrip_l l)) = false.
Proof.
  intros Hw; unfold rstrip_l; rewrite rev_involutive.
  apply strip_prefixes_clean;
    [exact py_whitespace_rev_nonempty | rewrite length_rev; lia | apply in_map, Hw].
Qed.

Lemma rstrip_l_prefix l : exists suf, l = rstrip_l l ++ suf.
Proof.
  unfold rstrip_l.
  destruct (strip_prefixes_suffix (map (@rev ascii) py_whitespace_utf8) (length l) (rev l))
    as (pre & Hpre).
  exists (rev pre); rewrite <- rev_app_distr, <- Hpre, rev_involutive; reflexivity.
Qed.

Lemma lstrip_l_suffix l : exists pre, l = pre ++ lstrip_l l.
Proof. apply strip_prefixes_suffix. Qed.

Lemma py_strip_chars s :
  String.list_ascii_of_string (py_strip s)
  = rstrip_l (lstrip_l (String.list_ascii_of_string s)).
Proof. unfold py_strip; apply String.list_ascii_of_string_of_list_ascii. Qed.

Lemma strip_l_first l w :
  In w py_whitespace_utf8 -> is_prefix w (rstrip_l (lstrip_l l)) = false.
Proof.
  intros Hw; destruct (is_prefix w (rstrip_l (lstrip_l l))) eqn:H; [|reflexivity].
  exfalso; apply is_prefix_app in H as (r & Hr).
  destruct (rstrip_l_prefix (lstrip_l l)) as (suf & Hsuf).
  assert (Hp : is_prefix w (lstrip_l l) = true).
  { apply is_prefix_app; exists (r ++ suf); rewrite Hsuf, Hr, app_assoc; reflexivity. }
  rewrite (lstrip_l_clean l w Hw) in Hp; discriminate.
Qed.

Lemma strip_l_last l w :
  In w py_whitespace_utf8 -> is_prefix (rev w) (rev (rstrip_l (lstrip_l l))) = false.
Proof. apply rstrip_l_clean. Qed.

Lemma strip_l_incl l c : In c (rstrip_l (lstrip_l l)) -> In c l.
Proof.
  intros H.
  destruct (rstrip_l_prefix (lstrip_l l)) as (suf & Hsuf).
  destruct (lstrip_l_suffix l) as (pre & Hpre).
  rewrite Hpre, Hsuf, !in_app_iff; auto.
Qed.

Lemma py_split_snoc_comma s :
  py_split "," (s ++ ",") = py_split "," s ++ [""].
Proof.
  unfold py_split; rewrite list_ascii_of_string_app; simpl.
  rewrite split_l_snoc_sep, map_app; reflexivity.
Qed.

(* ------------------------------------------------------------------ *)
(** ** Lemmas on the float-list parameters *)

Lemma map_float_converted {F} (float : string -> conv_result F) l fs :
  map_float float l = Converted fs -> Forall2 (fun a x => float a = Converted x) l fs.
Proof.
  revert fs; induction l as [|a r IH]; intros fs; simpl.
  - intros H; injection H as <-; constructor.
  - destruct (float a) as [f|] eqn:Ha; [|discriminate].
    destruct (map_float float r) as [fs'|]; [|discriminate].
    intros H; injection H as <-; constructor; auto.
Qed.

Lemma map_float_error {F} (float : string -> conv_result F) l :
  map_float float l = ValueError <-> Exists (fun a => float a = ValueError) l.
Proof.
  induction l as [|a r IH]; simpl.
  - split; [discriminate | intros H; inversion H].
  - rewrite Exists_cons; destruct (float a) as [f|] eqn:Ha.
    + rewrite <- IH; destruct (map_float float r).
      * split; [discriminate | intros [H|H]; congruence].
      * split; [intros _; right; reflexivity | reflexivity].
    + split; [left; reflexivity | reflexivity].
Qed.

(* ------------------------------------------------------------------ *)
(** ** Further properties of the launcher *)

(** The task-name list parsed from a string has one entry per
    comma-separated piece: one more than the number of commas. *)
Theorem task_names_count (s : string) :
  exists names, task_names_of (PyStr s) = PyList names
                /\ length names = S (count_occ ascii_dec (String.list_ascii_of_string s) ","%char).
Proof.
  eexists; split; [reflexivity|].
  unfold py_split; rewrite !length_map; apply length_split_l.
Qed.

(** Every task name parsed from a string contains no comma and neither
    starts nor ends with a whitespace character in the sense of
    [str.isspace] (it does not start or end with the UTF-8 encoding of
    one). *)
Theorem task_names_clean (s : string) :
  exists names, task_names_of (PyStr s) = PyList (map PyStr names)
    /\ Forall (fun t =>
         let cs := String.list_ascii_of_string t in
         ~ In ","%char cs
         /\ (forall w, In w py_whitespace_utf8 -> is_prefix w cs = false)
         /\ (forall w, In w py_whitespace_utf8 -> is_prefix (rev w) (rev cs) = false)) names.
Proof.
  exists (map py_strip (py_split "," s)); split.
  - simpl; rewrite map_map; reflexivity.
  - unfold py_split; rewrite map_map.
    pose proof (split_l_no_sep "," (String.list_ascii_of_string s) [] (fun H => H)) as HF.
    apply Forall_map; eapply Forall_impl; [exact HF|]; intros piece Hp; simpl.
    rewrite py_strip_chars, String.list_ascii_of_string_of_list_ascii.
    split; [|split].
    + intros H; apply strip_l_incl in H; contradiction.
    + apply strip_l_first.
    + apply strip_l_last.
Qed.

(** A trailing comma in the task-name string is not dropped: it adds an
    empty task name after the names of the string without it. *)
Theorem task_names_trailing_comma (s : string) :
  task_names_of (PyStr (s ++ ",")) =
  PyList (map (fun a => PyStr (py_strip a)) (py_split "," s) ++ [PyStr ""]).
Proof.
  unfold task_names_of; cbn [py_isinstance_str].
  rewrite py_split_snoc_comma, map_app; reflexivity.
Qed.

(** Splitting on commas loses nothing but the commas: joining the
    pieces with [","] gives the string back. *)
Theorem py_split_join (s : string) :
  String.concat "," (py_split "," s) = s.
Proof.
  unfold py_split; rewrite concat_split_l; simpl.
  apply String.string_of_list_ascii_of_string.
Qed.

(** When [d_multiple] (or [d_min_ratio]) is a string and is parsed, the
    list holds one float per comma-separated piece, each the value of
    [float] on its piece, in order. *)
Theorem ratio_param_floats {F} (float : string -> conv_result F) (s : string)
    (l : list F) :
  ratio_param float (Some (PyStr s)) = Converted (FloatList l) ->
  length l = S (count_occ ascii_dec (String.list_ascii_of_string s) ","%char)
  /\ Forall2 (fun a x => float a = Converted x) (py_split "," s) l.
Proof.
  simpl; destruct (map_float float (py_split "," s)) as [fs|] eqn:Hm; [|discriminate].
  intros H; injection H as <-.
  apply map_float_converted in Hm.
  split; [|exact Hm].
  rewrite <- (Forall2_length _ _ _ Hm); unfold py_split; rewrite length_map.
  apply length_split_l.
Qed.

Lemma ratio_param_floats_witness :
  ratio_param float_digits (Some (PyStr "1,20,3")) = Converted (FloatList [1; 20; 3])
  /\ length [1; 20; 3] = S (count_occ ascii_dec (String.list_ascii_of_string "1,20,3") ","%char).
Proof.
  assert (H : ratio_param float_digits (Some (PyStr "1,20,3")) = Converted (FloatList [1; 20; 3]))
    by reflexivity.
  split; [exact H | exact (proj1 (ratio_param_floats float_digits _ _ H))].
Defined.

(** A string [d_multiple] (or [d_min_ratio]) raises [ValueError] exactly
    when [float] rejects one of its comma-separated pieces. *)
Theorem ratio_param_value_error {F} (float : string -> conv_result F) (s : string) :
  ratio_param float (Some (PyStr s)) = ValueError
  <-> Exists (fun a => float a = ValueError) (py_split "," s).
Proof.
  simpl; rewrite <- map_float_error.
  destruct (map_float float (py_split "," s)); split; intros H; congruence.
Qed.

(** Since [float("")] raises [ValueError], an empty [d_multiple] string
    or one ending in a comma raises [ValueError]. *)
Theorem ratio_param_empty_piece {F} (float : string -> conv_result F) (s : string) :
  float "" = ValueError ->
  ratio_param float (Some (PyStr "")) = ValueError
  /\ ratio_param float (Some (PyStr (s ++ ","))) = ValueError.
Proof.
  intros Hempty; split; apply ratio_param_value_error.
  - apply Exists_cons_hd; exact Hempty.
  - rewrite py_split_snoc_comma; apply Exists_app; right; apply Exists_cons_hd; exact Hempty.
Qed.

Lemma ratio_param_empty_piece_witness :
  float_digits "" = ValueError
  /\ ratio_param float_digits (Some (PyStr "2,")) = ValueError.
Proof.
  assert (H : float_digits "" = ValueError) by reflexivity.
  split; [exact H | exact (proj2 (ratio_param_empty_piece float_digits "2" H))].
Defined.

(* ------------------------------------------------------------------ *)
(** ** Further properties of the evaluation kit and of a run *)

Lemma length_build_evlter_filter l :
  length (build_evlter l) = length (List.filter (fun dt => known_metric (metric dt)) l).
Proof.
  induction l as [|dt r IH]; simpl; [reflexivity|].
  rewrite length_app, IH.
  destruct (known_metric (metric dt)) eqn:Hk.
  - destruct (scorers_for_known dt Hk) as (sc & -> & _); reflexivity.
  - rewrite scorers_for_unknown by exact Hk; reflexivity.
Qed.

(** The kit's per-split lists are aligned: the metric names, the
    evaluation callbacks and the state names all have one entry per
    split, and entry [i] of each comes from split [i] of [val ++ test]. *)
Theorem eval_kit_aligned (val test : list split) (kit : eval_kit) :
  build_eval_kit val test = Ok kit ->
  length (kit_eval_metric kit) = length (val ++ test)
  /\ length (kit_eval_funcs kit) = length (val ++ test)
  /\ length (kit_eval_state kit) = length (val ++ test)
  /\ (forall i dt, nth_error (val ++ test) i = Some dt ->
        nth_error (kit_eval_metric kit) i = Some (metric dt)
        /\ nth_error (kit_eval_funcs kit) i = Some (eval_func dt)
        /\ nth_error (kit_eval_state kit) i = Some (state_name dt)).
Proof.
  intros Hk; destruct (build_eval_kit_ok _ _ _ Hk) as (v0 & t0 & _ & _ & ->); simpl.
  rewrite <- map_app, !length_map.
  split; [reflexivity|]; split; [reflexivity|]; split; [reflexivity|].
  intros i dt Hi; rewrite !nth_error_map, Hi; auto.
Qed.

Lemma eval_kit_aligned_witness :
  let val := [mk_split "cora_val" "acc" 7 "f"] in
  let test := [mk_split "cora_test" "acc" 7 "f"; mk_split "hiv_test" "auc" 2 "g"] in
  let kit := mk_eval_kit ["acc"; "acc"; "auc"] [Accuracy_multiclass 7; Accuracy_multiclass 7; AUROC_binary]
               ["f"; "f"; "g"] ["cora_val"; "cora_test"; "hiv_test"] "cora_val" "cora_test" in
  build_eval_kit val test = Ok kit
  /\ nth_error (kit_eval_state kit) 2 = Some "hiv_test".
Proof.
  intros val test kit.
  assert (Hk : build_eval_kit val test = Ok kit) by reflexivity.
  split; [exact Hk|].
  destruct (eval_kit_aligned val test kit Hk) as (_ & _ & _ & Hn).
  exact (proj2 (proj2 (Hn 2%nat (mk_split "hiv_test" "auc" 2 "g") eq_refl))).
Defined.

(** The monitor states are positions of the kit's state list: the
    validation monitor is its first entry and the test monitor the entry
    right after the validation states. *)
Theorem eval_kit_monitor_positions (val test : list split) (kit : eval_kit) :
  build_eval_kit val test = Ok kit ->
  nth_error (kit_eval_state kit) 0 = Some (kit_val_monitor_state kit)
  /\ nth_error (kit_eval_state kit) (length val) = Some (kit_test_monitor_state kit).
Proof.
  intros Hk; destruct (build_eval_kit_ok _ _ _ Hk) as (v0 & t0 & Hv & Ht & ->); simpl.
  destruct val as [|v vs]; [discriminate|]; destruct test as [|t ts]; [discriminate|].
  simpl in Hv, Ht; injection Hv as <-; injection Ht as <-.
  split; [reflexivity|].
  rewrite nth_error_app2 by (rewrite length_map; lia).
  rewrite length_map, Nat.sub_diag; reflexivity.
Qed.

Lemma eval_kit_monitor_positions_witness :
  let val := [mk_split "a_val" "acc" 3 "f"; mk_split "b_val" "acc" 3 "f"] in
  let test := [mk_split "a_test" "acc" 3 "f"] in
  build_eval_kit val test
    = Ok (mk_eval_kit ["acc"; "acc"; "acc"]
            [Accuracy_multiclass 3; Accuracy_multiclass 3; Accuracy_multiclass 3]
            ["f"; "f"; "f"] ["a_val"; "b_val"; "a_test"] "a_val" "a_test")
  /\ nth_error ["a_val"; "b_val"; "a_test"] 2 = Some "a_test".
Proof.
  intros val test.
  assert (Hk : build_eval_kit val test
    = Ok (mk_eval_kit ["acc"; "acc"; "acc"]
            [Accuracy_multiclass 3; Accuracy_multiclass 3; Accuracy_multiclass 3]
            ["f"; "f"; "f"] ["a_val"; "b_val"; "a_test"] "a_val" "a_test")) by reflexivity.
  split; [exact Hk|].
  exact (proj2 (eval_kit_monitor_positions val test _ Hk)).
Defined.

(** The kit's scorers are the validation splits' scorers followed by the
    test splits' scorers, one for each split with a known metric kind. *)
Theorem eval_kit_scorers (val test : list split) (kit : eval_kit) :
  build_eval_kit val test = Ok kit ->
  kit_evlter kit = build_evlter val ++ build_evlter test
  /\ length (kit_evlter kit)
     = length (List.filter (fun dt => known_metric (metric dt)) (val ++ test)).
Proof.
  intros Hk; destruct (build_eval_kit_ok _ _ _ Hk) as (v0 & t0 & _ & _ & ->); simpl.
  split; [apply build_evlter_app | apply length_build_evlter_filter].
Qed.

Lemma eval_kit_scorers_witness :
  let val := [mk_split "v" "auc" 2 "f"; mk_split "w" "f1" 2 "f"] in
  let test := [mk_split "t" "apr" 40 "f"] in
  build_eval_kit val test
    = Ok (mk_eval_kit ["auc"; "f1"; "apr"] [AUROC_binary; MultiApr 40] ["f"; "f"; "f"]
            ["v"; "w"; "t"] "v" "t")
  /\ [AUROC_binary; MultiApr 40] = build_evlter val ++ build_evlter test.
Proof.
  intros val test.
  assert (Hk : build_eval_kit val test
    = Ok (mk_eval_kit ["auc"; "f1"; "apr"] [AUROC_binary; MultiApr 40] ["f"; "f"; "f"]
            ["v"; "w"; "t"] "v" "t")) by reflexivity.
  split; [exact Hk | exact (proj1 (eval_kit_scorers val test _ Hk))].
Defined.

(** The GNN encoder and the head are built with the same output
    dimension in every run. *)
Theorem gnn_head_same_dim (override : option string) (p : params)
    (env : run_env) (d1 d2 : Z) (h : head_variant) :
  In (BuildGNN d1) (trace_of override p env) ->
  In (BuildHead h d2) (trace_of override p env) ->
  d1 = d2.
Proof.
  intros H1 H2; apply gnn_in_trace in H1; apply head_in_trace in H2 as [_ ->].
  exact H1.
Qed.

Lemma gnn_head_same_dim_witness :
  let p := mk_params 1 (PyStr "arxiv") 100 (Some 8) "last" in
  let env := mk_env 1 [] [] in
  In (BuildGNN 108) (trace_of None p env)
  /\ In (BuildHead BinGraphModel 108) (trace_of None p env)
  /\ 108 = 108.
Proof.
  intros p env.
  assert (H1 : In (BuildGNN 108) (trace_of None p env)) by (vm_compute; tauto).
  assert (H2 : In (BuildHead BinGraphModel 108) (trace_of None p env)) by (vm_compute; tauto).
  split; [exact H1|]; split; [exact H2|].
  exact (gnn_head_same_dim None p env _ _ _ H1 H2).
Defined.

(** In a completed run the training driver is started once, as the last
    step, after the evaluation kit built from the splits. *)
Theorem fit_last_once (override : option string) (p : params) (env : run_env) :
  snd (run_trace override p env) = Ok tt ->
  exists pre kit,
    trace_of override p env = pre ++ [LightningFit (strategy_of (env_gpu_size env))]
    /\ build_eval_kit (env_val env) (env_test env) = Ok kit
    /\ In (BuildEvalKit kit) pre
    /\ (forall s, ~ In (LightningFit s) pre).
Proof.
  unfold trace_of; rewrite run_trace_eq.
  destruct (build_eval_kit (env_val env) (env_test env)) as [kit|e] eqn:Hk;
    cbn [fst snd]; [intros _|discriminate].
  exists (pre_kit_steps override p env
          ++ [BuildEvalKit kit; BuildOptimizer; BuildExpConfig; BuildPredModel]), kit.
  split; [unfold fit_steps; rewrite <- app_assoc; reflexivity|].
  split; [reflexivity|]; split.
  - apply in_app_iff; right; left; reflexivity.
  - intros s H; apply in_app_iff in H as [H|H].
    + exact (pre_kit_before_kit _ _ _ _ H).
    + simpl in H; repeat destruct H as [H|H]; discriminate || contradiction.
Qed.

Lemma fit_last_once_witness :
  let p := mk_params 1 (PyStr "arxiv") 100 None "last" in
  let env := mk_env 1 [mk_split "v" "acc" 40 "f"] [mk_split "t" "acc" 40 "f"] in
  snd (run_trace None p env) = Ok tt
  /\ exists pre, trace_of None p env = pre ++ [LightningFit "auto"].
Proof.
  intros p env.
  assert (H : snd (run_trace None p env) = Ok tt) by reflexivity.
  split; [exact H|].
  destruct (fit_last_once None p env H) as (pre & kit & Htr & _).
  exists pre; exact Htr.
Defined.

(** The sentence encoder is released once, right after the tasks are
    constructed from it and before the GNN encoder and the head are
    built. *)
Theorem encoder_flushed_before_model (override : option string) (p : params)
    (env : run_env) :
  exists A B,
    trace_of override p env = A ++ [ConstructExp; FlushEncoder] ++ B
    /\ In BuildSentenceEncoder A
    /\ In (BuildTaskConstructor (task_names_of (p_task_names p))) A
    /\ ~ In FlushEncoder A /\ ~ In FlushEncoder B
    /\ In (BuildGNN (out_dim_of (p_emb_dim p) (p_rwpe p))) B
    /\ In (BuildHead (bin_model_of (p_JK p)) (out_dim_of (p_emb_dim p) (p_rwpe p))) B.
Proof.
  set (d := out_dim_of (p_emb_dim p) (p_rwpe p)).
  set (A := setup_steps override
            ++ [SetRandomSeed (p_seed p); SetMatmulPrecision; PrintParams;
                GetAvailableDevices; BuildSentenceEncoder;
                LoadYaml "configs/task_config.yaml"; LoadYaml "configs/data_config.yaml";
                BuildTaskConstructor (task_names_of (p_task_names p))]).
  set (B0 := [BuildGNN d; BuildHead (bin_model_of (p_JK p)) d; MakeTrainData;
              MakeFullDmList; BuildDataModule (env_gpu_size env)]).
  assert (Hpre : pre_kit_steps override p env = A ++ [ConstructExp; FlushEncoder] ++ B0).
  { unfold pre_kit_steps, A, B0, build_steps; rewrite <- !app_assoc; reflexivity. }
  assert (HA : ~ In FlushEncoder A).
  { unfold A, setup_steps; destruct override; simpl; intros H;
      repeat destruct H as [H|H]; discriminate || contradiction. }
  assert (HA1 : In BuildSentenceEncoder A)
    by (unfold A; apply in_app_iff; right; simpl; tauto).
  assert (HA2 : In (BuildTaskConstructor (task_names_of (p_task_names p))) A)
    by (unfold A; apply in_app_iff; right; simpl; tauto).
  unfold trace_of; rewrite run_trace_eq.
  destruct (build_eval_kit (env_val env) (env_test env)) as [kit|e]; cbn [fst].
  - exists A, (B0 ++ fit_steps kit env); rewrite Hpre, <- !app_assoc.
    split; [reflexivity|]; split; [exact HA1|]; split; [exact HA2|]; split; [exact HA|].
    split; [|split]; [| apply in_app_iff; left; unfold B0; simpl; tauto
                      | apply in_app_iff; left; unfold B0; simpl; tauto].
    unfold B0, fit_steps; simpl; intros H; repeat destruct H as [H|H];
      discriminate || contradiction.
  - exists A, B0; rewrite Hpre.
    split; [reflexivity|]; split; [exact HA1|]; split; [exact HA2|]; split; [exact HA|].
    split; [|split]; [| unfold B0; simpl; tauto | unfold B0; simpl; tauto].
    unfold B0; simpl; intros H; repeat destruct H as [H|H]; discriminate || contradiction.
Qed.
